(** * The OpenAI-to-CLI adapter of claude-max-api-proxy

    A shallow embedding of [src/adapter/openai-to-cli.ts] and of the request
    types of [src/types/openai.ts], with the properties of the model
    resolver ([extractModel]), of the prompt flattener ([extractContent],
    [messagesToPrompt]) and of the request converter ([openaiToCli]).

    The adapter is ordinary JavaScript once the type annotations are erased,
    so the part of the language it touches is embedded first (module [JS]):
    strings as sequences of UTF-16 code units, [String.prototype.trim],
    [Array.prototype.join], property reads through the prototype chain, the
    conversion [String (v)], and abrupt completion (a thrown [TypeError]). *)

From Stdlib Require Import List NArith Bool Ascii String Lia.
Import ListNotations.

Set Implicit Arguments.

(* ================================================================== *)
(** * The fragment of JavaScript used by the adapter *)
(* ================================================================== *)

Module JS.

(** ** Strings *)

(** A JavaScript string is a finite sequence of UTF-16 code units.  A code
    unit is a number below 2^16; nothing below depends on the bound. *)
Definition codeunit := N.
Definition jsstring := list codeunit.

(** The string denoted by a source literal made of ASCII characters. *)
Definition lit (s : string) : jsstring :=
  map N_of_ascii (list_ascii_of_string s).

(** The code unit written [\n] in the source. *)
Definition LF : codeunit := 10%N.

(** [s1 === s2] on strings: the same code units in the same order. *)
Fixpoint str_eqb (s1 s2 : jsstring) : bool :=
  match s1, s2 with
  | [], [] => true
  | c1 :: r1, c2 :: r2 => N.eqb c1 c2 && str_eqb r1 r2
  | _, _ => false
  end.

(** [s.replace(/^p/, e)] for a pattern [p] of literal characters and the
    empty string [e]: the anchored pattern matches at most once, at index
    0, and the match is removed; without a match [s] is returned. *)
Fixpoint strip_prefix (p s : jsstring) : option jsstring :=
  match p, s with
  | [], _ => Some s
  | a :: p', b :: s' => if N.eqb a b then strip_prefix p' s' else None
  | _ :: _, [] => None
  end.

Definition replace_prefix (p s : jsstring) : jsstring :=
  match strip_prefix p s with
  | Some rest => rest
  | None => s
  end.

(** WhiteSpace and LineTerminator of ECMA-262: the code units removed by
    [trim]. *)
Definition is_white_space (c : codeunit) : bool :=
  existsb (N.eqb c)
    [ 9; 10; 11; 12; 13; 32; 160; 5760;
      8192; 8193; 8194; 8195; 8196; 8197; 8198; 8199; 8200; 8201; 8202;
      8232; 8233; 8239; 8287; 12288; 65279 ]%N.

Fixpoint trimStart (s : jsstring) : jsstring :=
  match s with
  | [] => []
  | c :: r => if is_white_space c then trimStart r else s
  end.

Fixpoint trimEnd (s : jsstring) : jsstring :=
  match s with
  | [] => []
  | c :: r =>
      match trimEnd r with
      | [] => if is_white_space c then [] else [c]
      | r' => c :: r'
      end
  end.

(** [s.trim()] *)
Definition trim (s : jsstring) : jsstring := trimEnd (trimStart s).

(** [xs.join(sep)] on an array of strings. *)
Fixpoint join (sep : jsstring) (xs : list jsstring) : jsstring :=
  match xs with
  | [] => []
  | [x] => x
  | x :: rest => x ++ sep ++ join sep rest
  end.

(** ** Values *)

(** The values a property read of a string-valued table can produce: the
    table's own strings, [undefined], and the built-in functions and
    objects reached through the prototype chain, named as ECMA-262 names
    its intrinsics. *)
Inductive value :=
| VUndefined
| VString (s : jsstring)
| VBuiltin (intrinsic : string).

(** [ToBoolean]: [undefined] and the empty string are falsy; functions and
    objects are truthy. *)
Definition ToBoolean (v : value) : bool :=
  match v with
  | VUndefined => false
  | VString [] => false
  | VString (_ :: _) => true
  | VBuiltin _ => true
  end.

(** Lookup by string key in a list of properties. *)
Fixpoint assoc {A} (key : jsstring) (props : list (jsstring * A)) : option A :=
  match props with
  | [] => None
  | (k, v) :: rest => if str_eqb key k then Some v else assoc key rest
  end.

(** The properties every object literal inherits from [Object.prototype]
    (ECMA-262 sec. 20.1.3, with the legacy members every Node.js release
    provides). Reading [__proto__] runs its getter, which returns the
    prototype itself. *)
Definition Object_prototype : list (jsstring * string) :=
  [ (lit "constructor", "%Object%");
    (lit "hasOwnProperty", "%Object.prototype.hasOwnProperty%");
    (lit "isPrototypeOf", "%Object.prototype.isPrototypeOf%");
    (lit "propertyIsEnumerable", "%Object.prototype.propertyIsEnumerable%");
    (lit "toLocaleString", "%Object.prototype.toLocaleString%");
    (lit "toString", "%Object.prototype.toString%");
    (lit "valueOf", "%Object.prototype.valueOf%");
    (lit "__proto__", "%Object.prototype%");
    (lit "__defineGetter__", "%Object.prototype.__defineGetter__%");
    (lit "__defineSetter__", "%Object.prototype.__defineSetter__%");
    (lit "__lookupGetter__", "%Object.prototype.__lookupGetter__%");
    (lit "__lookupSetter__", "%Object.prototype.__lookupSetter__%") ]%string.

(** A name is inherited when [Object.prototype] has a property of that
    name. *)
Definition inherited (key : jsstring) : bool :=
  match assoc key Object_prototype with
  | Some _ => true
  | None => false
  end.

(** [o[key]] for an object literal [o] whose own properties hold strings:
    the own property when there is one, else the property inherited from
    [Object.prototype], else [undefined]. *)
Definition Get (own : list (jsstring * jsstring)) (key : jsstring) : value :=
  match assoc key own with
  | Some s => VString s
  | None =>
      match assoc key Object_prototype with
      | Some b => VBuiltin b
      | None => VUndefined
      end
  end.

(** ** Abrupt completion *)

(** The only exception the adapter's own code can raise. *)
Inductive error := TypeError.

(** The outcome of evaluating an expression or a call: a value, or a
    thrown exception that unwinds to the caller. *)
Inductive completion (A : Type) :=
| Normal (a : A)
| Throw (e : error).

Arguments Normal {A} a.
Arguments Throw {A} e.

Definition bind {A B} (c : completion A) (k : A -> completion B) : completion B :=
  match c with
  | Normal a => k a
  | Throw e => Throw e
  end.

Notation "x <- c ;; k" := (bind c (fun x => k))
  (at level 61, c at next level, right associativity).

(** ** Values outside the declared content type *)

(** A Number. The adapter does no arithmetic; the only operation that can
    reach a number is its conversion to a string, so a number is kept as
    the text [Number::toString] gives for it. *)
Record number := Number { Number_toString : jsstring }.

(** Data as [JSON.parse] builds it: no functions, and every object an
    ordinary object whose prototype is [Object.prototype]. *)
#[warnings="-register-all"]
Inductive json :=
| JNull
| JBoolean (b : bool)
| JNumber (n : number)
| JString (s : jsstring)
| JArray (elements : list json)
| JObject (properties : list (jsstring * json)).

(** The values that are neither a string nor an array, for which
    [typeof v === "string"] and [Array.isArray (v)] are both false, among
    those a parsed JSON document or a missing field can supply. *)
Inductive nonstring :=
| Undefined
| Null
| Boolean (b : bool)
| Num (n : number)
| Object (properties : list (jsstring * json)).

(** [OrdinaryToPrimitive (O, string)] on a data object, ECMA-262
    sec. 7.1.1.1: the methods [toString] and [valueOf] are read in this
    order; one that is callable is called, and its result is returned
    unless it is an object. An own property of a data object holds data,
    which is not callable. The inherited [toString] returns
    ["[object Object]"]; the inherited [valueOf] returns the object itself.
    When neither yields a primitive a [TypeError] is thrown. *)
Definition OrdinaryToPrimitive (properties : list (jsstring * json))
  : completion jsstring :=
  match assoc (lit "toString") properties with
  | None => Normal (lit "[object Object]")
  | Some _ =>
      match assoc (lit "valueOf") properties with
      | None => Throw TypeError
      | Some _ => Throw TypeError
      end
  end.

(** [String (v)] for a value that is not a string, an array or a symbol:
    [ToString (v)] of ECMA-262 sec. 7.1.17. *)
Definition String_ (v : nonstring) : completion jsstring :=
  match v with
  | Undefined => Normal (lit "undefined")
  | Null => Normal (lit "null")
  | Boolean true => Normal (lit "true")
  | Boolean false => Normal (lit "false")
  | Num n => Normal (Number_toString n)
  | Object properties => OrdinaryToPrimitive properties
  end.

End JS.

Import JS.

(* ================================================================== *)
(** * src/types/openai.ts *)
(* ================================================================== *)

Module OpenAI.

Record ImageUrl := {
  url : jsstring;
  detail : option jsstring
}.

(** [type] is declared ["text" | "image_url"]; the adapter compares it with
    ["text"] only, so it is kept as the string it is at run time. An
    optional field that is missing reads as [undefined], here [None]. *)
Record OpenAIContentPart := {
  type : jsstring;
  text : option jsstring;
  image_url : option ImageUrl
}.

(** [content] is declared [string | OpenAIContentPart[]]. [extractContent]
    has a third branch for a value that is neither, which only a request
    that does not have the declared type can reach; [COther] carries such
    a value. The elements of an array content have the declared type, as
    has the [model] of a request: what the adapter does on an array with
    other elements or on a [model] that is not a string is not
    described here. *)
Inductive Content :=
| CString (s : jsstring)
| CParts (parts : list OpenAIContentPart)
| COther (v : nonstring).

(** [role] is declared ["system" | "user" | "assistant"]; the adapter's
    [switch] has no [default] case, so any string is taken. *)
Record OpenAIChatMessage := {
  role : jsstring;
  content : Content
}.

Record OpenAIChatRequest := {
  model : jsstring;
  messages : list OpenAIChatMessage;
  stream : option bool;
  temperature : option number;
  max_tokens : option number;
  top_p : option number;
  frequency_penalty : option number;
  presence_penalty : option number;
  user : option jsstring
}.

(** The declared shape of a content: a string or an array of parts. *)
Definition declared_content (c : Content) : bool :=
  match c with
  | CString _ | CParts _ => true
  | COther _ => false
  end.

End OpenAI.

(* ================================================================== *)
(** * src/adapter/openai-to-cli.ts *)
(* ================================================================== *)

Module Adapter.

Import OpenAI.

(** [type ClaudeModel = "opus" | "sonnet" | "haiku"] *)
Inductive ClaudeModel := opus | sonnet | haiku.

(** The string a [ClaudeModel] is at run time. *)
Definition alias (m : ClaudeModel) : jsstring :=
  match m with
  | opus => lit "opus"
  | sonnet => lit "sonnet"
  | haiku => lit "haiku"
  end.

(** [CliInput]. The field [model] is declared [ClaudeModel]; it holds
    whatever [extractModel] returned. [sessionId] is given by the value a
    read of it yields, [None] for [undefined]. *)
Record CliInput := {
  prompt : jsstring;
  model : value;
  sessionId : option jsstring
}.

Definition MODEL_MAP : list (jsstring * jsstring) :=
  [ (* Direct model names *)
    (lit "claude-opus-4", lit "opus");
    (lit "claude-sonnet-4", lit "sonnet");
    (lit "claude-haiku-4", lit "haiku");
    (* With provider prefix *)
    (lit "claude-code-cli/claude-opus-4", lit "opus");
    (lit "claude-code-cli/claude-sonnet-4", lit "sonnet");
    (lit "claude-code-cli/claude-haiku-4", lit "haiku");
    (* Aliases *)
    (lit "opus", lit "opus");
    (lit "sonnet", lit "sonnet");
    (lit "haiku", lit "haiku") ].

(** The pattern of [/^claude-code-cli\//]. *)
Definition provider_prefix : jsstring := lit "claude-code-cli/".

Definition extractModel (model : jsstring) : value :=
  (* Try direct lookup *)
  if ToBoolean (Get MODEL_MAP model) then Get MODEL_MAP model
  else
    (* Try stripping provider prefix *)
    let stripped := replace_prefix provider_prefix model in
    if ToBoolean (Get MODEL_MAP stripped) then Get MODEL_MAP stripped
    else
      (* Default to opus *)
      VString (lit "opus").

(** The callback of [filter]: [part.type === "text" && part.text]. *)
Definition is_text_part (part : OpenAIContentPart) : bool :=
  str_eqb (type part) (lit "text") &&
  match text part with
  | Some (_ :: _) => true
  | Some [] | None => false
  end.

(** The callback of [map], [part.text!], as [join] renders it: [join]
    writes an [undefined] element as the empty string. *)
Definition text_payload (part : OpenAIContentPart) : jsstring :=
  match text part with
  | Some t => t
  | None => []
  end.

Definition extractContent (content : Content) : completion jsstring :=
  match content with
  | CString s => Normal s
  | CParts parts =>
      Normal (join [] (map text_payload (filter is_text_part parts)))
  | COther v => String_ v
  end.

Definition system_block (text : jsstring) : jsstring :=
  lit "<system>" ++ [LF] ++ text ++ [LF] ++ lit "</system>" ++ [LF].

Definition previous_response_block (text : jsstring) : jsstring :=
  lit "<previous_response>" ++ [LF] ++ text ++ [LF]
    ++ lit "</previous_response>" ++ [LF].

(** One iteration of the [for] loop over [messages], on the array [parts]
    it grows: the content is extracted first, then the [switch] on the role
    pushes a fragment or, for a role that matches no [case], nothing. *)
Definition loop_body (parts : list jsstring) (msg : OpenAIChatMessage)
  : completion (list jsstring) :=
  text <- extractContent (content msg) ;;
  if str_eqb (role msg) (lit "system") then
    Normal (parts ++ [system_block text])
  else if str_eqb (role msg) (lit "user") then
    Normal (parts ++ [text])
  else if str_eqb (role msg) (lit "assistant") then
    Normal (parts ++ [previous_response_block text])
  else Normal parts.

Fixpoint for_of (messages : list OpenAIChatMessage) (parts : list jsstring)
  : completion (list jsstring) :=
  match messages with
  | [] => Normal parts
  | msg :: rest => parts' <- loop_body parts msg ;; for_of rest parts'
  end.

Definition messagesToPrompt (messages : list OpenAIChatMessage)
  : completion jsstring :=
  parts <- for_of messages [] ;;
  Normal (trim (join [LF] parts)).

(** The properties of the object literal are evaluated in source order. *)
Definition openaiToCli (request : OpenAIChatRequest) : completion CliInput :=
  p <- messagesToPrompt (messages request) ;;
  let m := extractModel (OpenAI.model request) in
  let s := user request in
  Normal {| prompt := p; model := m; sessionId := s |}.

End Adapter.

Import OpenAI Adapter.

(* ================================================================== *)
(** * The words of the specification *)
(* ================================================================== *)

(** Definitions that follow the specification's sentences, to be compared
    with the adapter's functions, and the inputs of its examples. *)
Module Spec.

(** A part of type ["text"] carrying [t]. *)
Definition text_part (t : string) : OpenAIContentPart :=
  {| type := lit "text"; text := Some (lit t); image_url := None |}.

(** A part of type ["image_url"]. *)
Definition image_part (u : string) : OpenAIContentPart :=
  {| type := lit "image_url"; text := None;
     image_url := Some {| url := lit u; detail := None |} |}.

(** A message with the given role. *)
Definition message (r : string) (c : Content) : OpenAIChatMessage :=
  {| role := lit r; content := c |}.

(** A request that sets the three fields the converter reads and leaves
    the generation parameters out. *)
Definition request_of (m : string) (ms : list OpenAIChatMessage)
  (u : option jsstring) : OpenAIChatRequest :=
  {| OpenAI.model := lit m; messages := ms; stream := None;
     temperature := None; max_tokens := None; top_p := None;
     frequency_penalty := None; presence_penalty := None; user := u |}.

(** "select only parts whose type is "text" and whose text payload is
    present (non-empty/defined), concatenate their text payloads in
    sequence order with no separator" *)
Fixpoint concat_text_payloads (parts : list OpenAIContentPart) : jsstring :=
  match parts with
  | [] => []
  | part :: rest =>
      match text part with
      | Some (c :: t) =>
          if str_eqb (type part) (lit "text")
          then (c :: t) ++ concat_text_payloads rest
          else concat_text_payloads rest
      | Some [] | None => concat_text_payloads rest
      end
  end.

(** "Per-role formatting, applied after content extraction, producing one
    string fragment per message", and none for any other role value. *)
Definition fragment (role text : jsstring) : list jsstring :=
  if str_eqb role (lit "system") then
    [lit "<system>" ++ [LF] ++ text ++ [LF] ++ lit "</system>" ++ [LF]]
  else if str_eqb role (lit "user") then
    [text]
  else if str_eqb role (lit "assistant") then
    [lit "<previous_response>" ++ [LF] ++ text ++ [LF]
       ++ lit "</previous_response>" ++ [LF]]
  else [].

(** The produced fragments, in original message order, of messages whose
    extracted texts are [texts]. *)
Definition fragments (messages : list OpenAIChatMessage)
  (texts : list jsstring) : list jsstring :=
  flat_map (fun mt => fragment (role (fst mt)) (snd mt))
    (combine messages texts).

(** "join all produced fragments, in original message order, with a single
    newline character as separator; then trim leading and trailing
    whitespace from the final joined string" *)
Definition flatten (messages : list OpenAIChatMessage)
  (texts : list jsstring) : jsstring :=
  trim (join [LF] (fragments messages texts)).

(** The values the third branch of [extractContent] turns into text: all
    but an object with an own property named [toString]. *)
Definition convertible (v : nonstring) : bool :=
  match v with
  | Object properties =>
      match assoc (lit "toString") properties with
      | Some _ => false
      | None => true
      end
  | _ => true
  end.

Definition convertible_content (c : Content) : bool :=
  match c with
  | COther v => convertible v
  | CString _ | CParts _ => true
  end.

End Spec.

Import Spec.

(* ================================================================== *)
(** * Facts about the JavaScript fragment *)
(* ================================================================== *)

(** Equality of two concatenations up to the bracketing of [++]. *)
Ltac list_normal :=
  repeat (cbn; rewrite <- app_assoc); cbn; reflexivity.

Section StringFacts.

Lemma str_eqb_refl (s : jsstring) : str_eqb s s = true.
Proof.
  induction s as [|c r IH]; simpl; [reflexivity|].
  now rewrite N.eqb_refl, IH.
Qed.

Lemma str_eqb_eq (s1 s2 : jsstring) : str_eqb s1 s2 = true <-> s1 = s2.
Proof.
  split; [|intros ->; apply str_eqb_refl].
  revert s2; induction s1 as [|c r IH]; intros [|c2 r2]; simpl;
    try discriminate; [reflexivity|].
  intros H; apply andb_true_iff in H as [Hc Hr].
  apply N.eqb_eq in Hc; apply IH in Hr; now subst.
Qed.

Lemma str_eqb_neq (s1 s2 : jsstring) : str_eqb s1 s2 = false <-> s1 <> s2.
Proof.
  rewrite <- str_eqb_eq; destruct (str_eqb s1 s2); split; congruence.
Qed.

Lemma strip_prefix_app (p s : jsstring) : strip_prefix p (p ++ s) = Some s.
Proof.
  induction p as [|a p IH]; simpl; [now destruct s|].
  now rewrite N.eqb_refl.
Qed.

Lemma strip_prefix_Some (p s rest : jsstring) :
  strip_prefix p s = Some rest -> s = p ++ rest.
Proof.
  revert s; induction p as [|a p IH]; intros s; simpl.
  - destruct s; intros [= <-]; reflexivity.
  - destruct s as [|b s]; [discriminate|].
    destruct (N.eqb_spec a b) as [->|]; [|discriminate].
    intros H; now rewrite (IH _ H).
Qed.

Lemma replace_prefix_app (p s : jsstring) : replace_prefix p (p ++ s) = s.
Proof. unfold replace_prefix; now rewrite strip_prefix_app. Qed.

(** The replacement removes the prefix when the string starts with it and
    returns the string unchanged when it does not. *)
Lemma replace_prefix_spec (p s : jsstring) :
  (exists rest, s = p ++ rest /\ replace_prefix p s = rest) \/
  ((forall rest, s <> p ++ rest) /\ replace_prefix p s = s).
Proof.
  unfold replace_prefix; destruct (strip_prefix p s) as [rest|] eqn:E.
  - left; exists rest; split; [now apply strip_prefix_Some|reflexivity].
  - right; split; [|reflexivity].
    intros rest ->; now rewrite strip_prefix_app in E.
Qed.

(** [trim] leaves no white space at either end. *)
Lemma trimStart_head (s : jsstring) (c : codeunit) (r : jsstring) :
  trimStart s = c :: r -> is_white_space c = false.
Proof.
  induction s as [|a s IH]; simpl; [discriminate|].
  destruct (is_white_space a) eqn:Ha; [exact IH|].
  now intros [= <- _].
Qed.

Lemma trimEnd_last (s r : jsstring) (c : codeunit) :
  trimEnd s = r ++ [c] -> is_white_space c = false.
Proof.
  revert r; induction s as [|a s IH]; intros r; simpl.
  - now destruct r.
  - destruct (trimEnd s) as [|b t] eqn:Et.
    + destruct (is_white_space a) eqn:Ha; [now destruct r|].
      destruct r as [|x [|y r]]; simpl; intros [= ]; congruence.
    + destruct r as [|x r]; simpl; [discriminate|].
      intros [= _ H]; now apply (IH r).
Qed.

Lemma trimEnd_head (s : jsstring) (c : codeunit) (r : jsstring) :
  trimEnd s = c :: r -> exists r', s = c :: r'.
Proof.
  destruct s as [|a s]; simpl; [discriminate|].
  destruct (trimEnd s); [destruct (is_white_space a)|];
    try discriminate; intros [= <- _]; eauto.
Qed.

Lemma trim_head (s : jsstring) (c : codeunit) (r : jsstring) :
  trim s = c :: r -> is_white_space c = false.
Proof.
  unfold trim; intros H.
  destruct (trimEnd_head _ H) as [r' Hr'].
  now apply (trimStart_head s Hr').
Qed.

Lemma trim_last (s r : jsstring) (c : codeunit) :
  trim s = r ++ [c] -> is_white_space c = false.
Proof. unfold trim; apply trimEnd_last. Qed.

(** A string with no white space at either end is left alone. *)
Lemma trimEnd_fixed (s : jsstring) (c : codeunit) :
  is_white_space c = false -> trimEnd (s ++ [c]) = s ++ [c].
Proof.
  intros Hc; induction s as [|a s IH]; simpl; [now rewrite Hc|].
  rewrite IH; now destruct s.
Qed.

Lemma trim_fixed (a : codeunit) (s : jsstring) (c : codeunit) :
  is_white_space a = false -> is_white_space c = false ->
  trim (a :: s ++ [c]) = a :: s ++ [c].
Proof.
  intros Ha Hc; unfold trim; simpl; rewrite Ha.
  exact (trimEnd_fixed (a :: s) c Hc).
Qed.

(** [trim] removes white space only, and only at the two ends. *)
Lemma trimStart_decompose (s : jsstring) :
  exists l, s = l ++ trimStart s /\ forallb is_white_space l = true.
Proof.
  induction s as [|a s (l & E & Hl)]; simpl; [now exists []|].
  destruct (is_white_space a) eqn:Ha.
  - exists (a :: l); simpl; rewrite Ha, Hl; split; [now f_equal|reflexivity].
  - now exists [].
Qed.

Lemma trimEnd_decompose (s : jsstring) :
  exists r, s = trimEnd s ++ r /\ forallb is_white_space r = true.
Proof.
  induction s as [|a s (r & E & Hr)]; simpl; [now exists []|].
  destruct (trimEnd s) as [|b t] eqn:Et.
  - simpl in E; subst r.
    destruct (is_white_space a) eqn:Ha.
    + exists (a :: s); simpl; now rewrite Ha, Hr.
    + exists s; now split.
  - exists r; split; [|exact Hr].
    simpl; now rewrite E at 1.
Qed.

Lemma trim_decompose (s : jsstring) :
  exists l r, s = l ++ trim s ++ r /\
    forallb is_white_space l = true /\ forallb is_white_space r = true.
Proof.
  destruct (trimStart_decompose s) as (l & El & Hl).
  destruct (trimEnd_decompose (trimStart s)) as (r & Er & Hr).
  exists l, r; unfold trim; repeat split; try assumption.
  now rewrite <- Er.
Qed.

Lemma join_empty_sep (xs : list jsstring) : join [] xs = List.concat xs.
Proof.
  induction xs as [|x [|y r] IH]; simpl in *;
    [reflexivity | now rewrite app_nil_r | now rewrite IH].
Qed.

End StringFacts.

(* ================================================================== *)
(** * The model resolver *)
(* ================================================================== *)

Section ModelResolver.

(** Case analysis on an entry [H : In (key, s) MODEL_MAP] of the table. *)
Ltac each_entry H :=
  unfold MODEL_MAP in H; simpl in H;
  repeat destruct H as [[= <- <-]|H]; try contradiction.

Lemma assoc_In {A} (key : jsstring) (props : list (jsstring * A)) (v : A) :
  assoc key props = Some v -> In (key, v) props.
Proof.
  induction props as [|[k w] rest IH]; simpl; [discriminate|].
  destruct (str_eqb key k) eqn:E.
  - apply str_eqb_eq in E; intros [= ->]; subst; now left.
  - intros H; right; now apply IH.
Qed.

(** What the annotation [Record<string, ClaudeModel>] says of the own
    properties of the table: each holds one of the three aliases. *)
Lemma MODEL_MAP_values (key s : jsstring) :
  In (key, s) MODEL_MAP -> exists m : ClaudeModel, s = alias m.
Proof.
  intros H; each_entry H;
    solve [now exists opus | now exists sonnet | now exists haiku].
Qed.

(** No key of the table is shadowed: each maps to one alias only. *)
Lemma MODEL_MAP_functional (key s : jsstring) :
  In (key, s) MODEL_MAP -> assoc key MODEL_MAP = Some s.
Proof.
  intros H; each_entry H; reflexivity.
Qed.

(** First part of the resolver's contract: a key of the table resolves to
    the alias the table gives it. *)
Lemma extractModel_table_key (M a : jsstring) :
  In (M, a) MODEL_MAP -> extractModel M = VString a.
Proof.
  intros H; each_entry H; reflexivity.
Qed.

(** Second part: so does a key of the table behind the provider prefix,
    either because the prefixed name is itself a key or because the
    prefix is stripped before the second lookup. *)
Lemma extractModel_prefixed_key (M a : jsstring) :
  In (M, a) MODEL_MAP -> extractModel (provider_prefix ++ M) = VString a.
Proof.
  intros H; each_entry H; reflexivity.
Qed.

Lemma Get_MODEL_MAP_own (key s : jsstring) :
  assoc key MODEL_MAP = Some s ->
  Get MODEL_MAP key = VString s /\ ToBoolean (Get MODEL_MAP key) = true.
Proof.
  intros H; unfold Get; rewrite H; split; [reflexivity|].
  destruct (MODEL_MAP_values (assoc_In _ _ H)) as [[] ->]; reflexivity.
Qed.

Lemma Get_MODEL_MAP_miss (key : jsstring) :
  assoc key MODEL_MAP = None -> inherited key = false ->
  Get MODEL_MAP key = VUndefined.
Proof.
  unfold Get, inherited; intros -> H.
  now destruct (assoc key Object_prototype).
Qed.

(** Third part, as far as it holds: a string that is no key of the table
    and names no inherited property, before and after the prefix is
    stripped, resolves to the default. *)
Lemma extractModel_default (model : jsstring) :
  assoc model MODEL_MAP = None ->
  assoc (replace_prefix provider_prefix model) MODEL_MAP = None ->
  inherited model = false ->
  inherited (replace_prefix provider_prefix model) = false ->
  extractModel model = VString (lit "opus").
Proof.
  intros H1 H2 H3 H4; unfold extractModel.
  now rewrite (Get_MODEL_MAP_miss _ H1 H3), (Get_MODEL_MAP_miss _ H2 H4).
Qed.

(** The resolver returns an alias unless one of its two lookups hits an
    inherited property, and then it returns that property's value. *)
Lemma extractModel_cases (model : jsstring) :
  (exists m : ClaudeModel, extractModel model = VString (alias m)) \/
  (exists b, extractModel model = VBuiltin b /\
     (assoc model Object_prototype = Some b \/
      assoc (replace_prefix provider_prefix model) Object_prototype = Some b)).
Proof.
  unfold extractModel.
  set (stripped := replace_prefix provider_prefix model).
  assert (G : forall key,
             (exists m, Get MODEL_MAP key = VString (alias m) /\
                        ToBoolean (Get MODEL_MAP key) = true) \/
             (exists b, Get MODEL_MAP key = VBuiltin b /\
                        assoc key Object_prototype = Some b) \/
             Get MODEL_MAP key = VUndefined).
  { intros key; destruct (assoc key MODEL_MAP) as [s|] eqn:E.
    - left. destruct (Get_MODEL_MAP_own _ E) as [Hg Ht].
      destruct (MODEL_MAP_values (assoc_In _ _ E)) as [m ->]; eauto.
    - right. unfold Get; rewrite E.
      destruct (assoc key Object_prototype) as [b|]; eauto. }
  destruct (G model) as [(m & Hg & Ht)|[(b & Hg & Hb)|Hg]]; rewrite Hg.
  - rewrite <- Hg, Ht, Hg; eauto.
  - simpl; eauto.
  - simpl.
    destruct (G stripped) as [(m & Hg' & Ht')|[(b & Hg' & Hb')|Hg']];
      rewrite Hg'.
    + rewrite <- Hg', Ht', Hg'; eauto.
    + simpl; eauto.
    + simpl; left; now exists opus.
Qed.

(** The resolver returns an alias exactly on the names that reach no
    inherited property. *)
Lemma extractModel_ClaudeModel_iff (model : jsstring) :
  (exists m : ClaudeModel, extractModel model = VString (alias m)) <->
  (assoc model MODEL_MAP = None ->
     inherited model = false /\
     (assoc (replace_prefix provider_prefix model) MODEL_MAP = None ->
      inherited (replace_prefix provider_prefix model) = false)).
Proof.
  unfold extractModel, inherited, Get.
  set (stripped := replace_prefix provider_prefix model).
  split.
  - intros [m Hm] E; rewrite E in Hm.
    destruct (assoc model Object_prototype); [discriminate|].
    split; [reflexivity|]; intros E'; rewrite E' in Hm.
    now destruct (assoc stripped Object_prototype).
  - intros H.
    destruct (assoc model MODEL_MAP) as [s|] eqn:E.
    + destruct (MODEL_MAP_values (assoc_In _ _ E)) as [m ->].
      exists m; destruct m; reflexivity.
    + destruct (H eq_refl) as [H1 H2].
      destruct (assoc model Object_prototype); [discriminate|].
      cbn [ToBoolean].
      destruct (assoc stripped MODEL_MAP) as [s|] eqn:E'.
      * destruct (MODEL_MAP_values (assoc_In _ _ E')) as [m ->].
        exists m; destruct m; reflexivity.
      * specialize (H2 eq_refl).
        destruct (assoc stripped Object_prototype); [discriminate|].
        now exists opus.
Qed.

(** C1 (the code departs from the claim). The string ["constructor"] is no
    key of the table, with or without the provider prefix stripped, yet
    [extractModel] does not return ["opus"] for it: the lookup
    [MODEL_MAP["constructor"]] finds the property every object literal
    inherits and the resolver returns that value, the function [Object]. *)
Theorem extractModel_constructor :
  assoc (lit "constructor") MODEL_MAP = None /\
  replace_prefix provider_prefix (lit "constructor") = lit "constructor" /\
  extractModel (lit "constructor") = VBuiltin "%Object%" /\
  extractModel (lit "constructor") <> VString (lit "opus").
Proof. repeat split; try reflexivity; discriminate. Qed.

End ModelResolver.

(* ================================================================== *)
(** * The prompt flattener *)
(* ================================================================== *)

Section PromptFlattener.

(** ** Content extraction *)

(** The callback of [filter] keeps a part exactly when its type is
    ["text"] and its text payload is defined and not empty. *)
Lemma is_text_part_spec (part : OpenAIContentPart) :
  is_text_part part = true <->
  type part = lit "text" /\ exists t, text part = Some t /\ t <> [].
Proof.
  unfold is_text_part; rewrite andb_true_iff, str_eqb_eq.
  split; intros [Hty Htx]; split; try exact Hty.
  - destruct (text part) as [[|c t]|]; try discriminate.
    exists (c :: t); split; [reflexivity|discriminate].
  - destruct Htx as (t & -> & Ht); now destruct t.
Qed.

Lemma concat_text_payloads_filter (parts : list OpenAIContentPart) :
  concat_text_payloads parts =
  List.concat (map text_payload (filter is_text_part parts)).
Proof.
  induction parts as [|part rest IH]; simpl; [reflexivity|].
  unfold is_text_part.
  destruct (text part) as [[|c t]|] eqn:Et;
    rewrite ?andb_false_r; try exact IH.
  rewrite andb_true_r.
  destruct (str_eqb (type part) (lit "text")); [|exact IH].
  simpl; unfold text_payload at 1; rewrite Et, IH; reflexivity.
Qed.

Lemma filter_none {A} (f : A -> bool) (xs : list A) :
  (forall x, In x xs -> f x = false) -> filter f xs = [].
Proof.
  induction xs as [|x xs IH]; simpl; intros H; [reflexivity|].
  rewrite (H x (or_introl eq_refl)); apply IH; intros y Hy; apply H; now right.
Qed.

(** A content of the declared shape is always extracted. *)
Lemma extractContent_declared (c : Content) :
  declared_content c = true -> exists text, extractContent c = Normal text.
Proof. destruct c; simpl; try discriminate; eauto. Qed.

(** A content outside the declared shape is extracted exactly when it is
    convertible. *)
Lemma extractContent_convertible (c : Content) :
  convertible_content c = true <-> exists text, extractContent c = Normal text.
Proof.
  destruct c as [s|parts|v]; simpl; [split; eauto..|].
  destruct v as [| |[]|n|properties]; simpl; try (split; eauto; fail).
  unfold OrdinaryToPrimitive.
  destruct (assoc (lit "toString") properties).
  - split; [discriminate|].
    destruct (assoc (lit "valueOf") properties); intros [t Ht]; discriminate.
  - split; eauto.
Qed.

Lemma extractContent_not_convertible (c : Content) :
  convertible_content c = false -> extractContent c = Throw TypeError.
Proof.
  intros H; destruct (extractContent c) as [t|[]] eqn:E; [|reflexivity].
  assert (convertible_content c = true)
    by (apply extractContent_convertible; eauto).
  congruence.
Qed.

(** ** The loop *)

(** One iteration appends the fragment of the message's role. *)
Lemma loop_body_fragment (parts : list jsstring) (m : OpenAIChatMessage)
  (t : jsstring) :
  extractContent (content m) = Normal t ->
  loop_body parts m = Normal (parts ++ fragment (role m) t).
Proof.
  intros E; unfold loop_body, fragment; rewrite E; simpl.
  destruct (str_eqb (role m) (lit "system")); [reflexivity|].
  destruct (str_eqb (role m) (lit "user")); [reflexivity|].
  destruct (str_eqb (role m) (lit "assistant")); [reflexivity|].
  now rewrite app_nil_r.
Qed.

Lemma loop_body_throw (parts : list jsstring) (m : OpenAIChatMessage)
  (e : error) :
  extractContent (content m) = Throw e -> loop_body parts m = Throw e.
Proof. intros E; unfold loop_body; now rewrite E. Qed.

(** The loop leaves in [parts] the fragments of all messages, in message
    order, after what [parts] held before. *)
Lemma for_of_fragments (messages : list OpenAIChatMessage)
  (texts : list jsstring) :
  Forall2 (fun m t => extractContent (content m) = Normal t) messages texts ->
  forall parts,
    for_of messages parts = Normal (parts ++ fragments messages texts).
Proof.
  induction 1 as [|m t ms ts Hm _ IH]; intros parts; simpl.
  - now rewrite app_nil_r.
  - rewrite (loop_body_fragment parts m Hm); simpl.
    rewrite IH; unfold fragments; simpl.
    now rewrite <- app_assoc.
Qed.

Lemma messagesToPrompt_flatten (messages : list OpenAIChatMessage)
  (texts : list jsstring) :
  Forall2 (fun m t => extractContent (content m) = Normal t) messages texts ->
  messagesToPrompt messages = Normal (flatten messages texts).
Proof.
  intros H; unfold messagesToPrompt.
  now rewrite (for_of_fragments H []).
Qed.

(** When every content can be extracted there are texts to flatten. *)
Lemma extract_all (messages : list OpenAIChatMessage) :
  Forall (fun m => convertible_content (content m) = true) messages ->
  exists texts,
    Forall2 (fun m t => extractContent (content m) = Normal t) messages texts.
Proof.
  induction 1 as [|m ms Hm _ [ts IH]]; [exists []; constructor|].
  apply extractContent_convertible in Hm as [t Ht].
  exists (t :: ts); now constructor.
Qed.

(** The loop stops at the first message whose content cannot be
    extracted, whatever the role of that message. *)
Lemma for_of_throw (messages : list OpenAIChatMessage) :
  Exists (fun m => convertible_content (content m) = false) messages ->
  forall parts, for_of messages parts = Throw TypeError.
Proof.
  induction messages as [|m ms IH]; intros H parts; [inversion H|].
  simpl.
  destruct (convertible_content (content m)) eqn:Hm.
  - apply extractContent_convertible in Hm as [t Ht].
    rewrite (loop_body_fragment parts m Ht); simpl.
    apply IH; inversion H as [? ? Hx|]; subst; [|assumption].
    assert (convertible_content (content m) = true)
      by (apply extractContent_convertible; eauto).
    congruence.
  - apply extractContent_not_convertible in Hm.
    now rewrite (loop_body_throw parts m Hm).
Qed.

(** X11. The prompt has no white space at either end, whatever the
    messages: its first and its last code unit, when there are any, are
    not white space. *)
Lemma messagesToPrompt_trimmed (messages : list OpenAIChatMessage)
  (p : jsstring) :
  messagesToPrompt messages = Normal p ->
  (forall c r, p = c :: r -> is_white_space c = false) /\
  (forall r c, p = r ++ [c] -> is_white_space c = false).
Proof.
  unfold messagesToPrompt.
  destruct (for_of messages []) as [parts|e]; simpl; [|discriminate].
  intros [= <-]; split; intros ? ? H.
  - eapply trim_head; exact H.
  - eapply trim_last; exact H.
Qed.

(** X12. A system message followed by a user message whose text does not
    end in white space: the system block, a blank line, then the user
    text; both texts are carried as they are, white space included. *)
Lemma messagesToPrompt_system_user (S U : jsstring) (c : codeunit) :
  is_white_space c = false ->
  messagesToPrompt
    [{| role := lit "system"; content := CString S |};
     {| role := lit "user"; content := CString (U ++ [c]) |}]
  = Normal (lit "<system>" ++ [LF] ++ S ++ [LF] ++ lit "</system>"
              ++ [LF] ++ [LF] ++ U ++ [c]).
Proof.
  intros Hc.
  set (body := lit "system>" ++ LF :: S ++ LF :: lit "</system>"
                 ++ LF :: LF :: U).
  change (messagesToPrompt
            [{| role := lit "system"; content := CString S |};
             {| role := lit "user"; content := CString (U ++ [c]) |}])
    with (Normal (trim (system_block S ++ [LF] ++ U ++ [c]))).
  assert (E : lit "<system>" ++ [LF] ++ S ++ [LF] ++ lit "</system>"
                ++ [LF] ++ [LF] ++ U ++ [c] = 60%N :: body ++ [c])
    by (unfold body; list_normal).
  assert (F : system_block S ++ [LF] ++ U ++ [c] = 60%N :: body ++ [c])
    by (unfold body, system_block; list_normal).
  rewrite E, F; f_equal.
  exact (trim_fixed 60%N body c eq_refl Hc).
Qed.

Lemma for_of_app (xs ys : list OpenAIChatMessage) (parts : list jsstring) :
  for_of (xs ++ ys) parts = (p <- for_of xs parts ;; for_of ys p).
Proof.
  revert parts; induction xs as [|m xs IH]; intros parts; simpl;
    [reflexivity|].
  destruct (loop_body parts m); simpl; [apply IH|reflexivity].
Qed.

(** The loop only appends: what [parts] held before stays in front. *)
Lemma loop_body_shift (parts : list jsstring) (m : OpenAIChatMessage) :
  loop_body parts m = (fs <- loop_body [] m ;; Normal (parts ++ fs)).
Proof.
  unfold loop_body.
  destruct (extractContent (content m)) as [t|e]; simpl; [|reflexivity].
  destruct (str_eqb (role m) (lit "system")); [reflexivity|].
  destruct (str_eqb (role m) (lit "user")); [reflexivity|].
  destruct (str_eqb (role m) (lit "assistant")); [reflexivity|].
  simpl; now rewrite app_nil_r.
Qed.

Lemma for_of_shift (ms : list OpenAIChatMessage) (parts : list jsstring) :
  for_of ms parts = (fs <- for_of ms [] ;; Normal (parts ++ fs)).
Proof.
  revert parts; induction ms as [|m ms IH]; intros parts; simpl.
  - now rewrite app_nil_r.
  - rewrite (loop_body_shift parts m).
    destruct (loop_body [] m) as [fs|e]; simpl; [|reflexivity].
    rewrite (IH (parts ++ fs)), (IH fs).
    destruct (for_of ms []) as [gs|e]; simpl; [|reflexivity].
    now rewrite app_assoc.
Qed.

(** The array at the end of the loop, around one message of a
    conversation: what the messages before it pushed, its own fragment,
    what the messages after it pushed. *)
Lemma for_of_context (xs ys : list OpenAIChatMessage) (fx fy : list jsstring)
  (m : OpenAIChatMessage) (t : jsstring) :
  for_of xs [] = Normal fx -> for_of ys [] = Normal fy ->
  extractContent (content m) = Normal t ->
  for_of (xs ++ m :: ys) [] = Normal (fx ++ fragment (role m) t ++ fy).
Proof.
  intros Hx Hy Ht.
  rewrite for_of_app, Hx; simpl.
  rewrite (loop_body_fragment fx m Ht); simpl.
  rewrite for_of_shift, Hy; simpl.
  now rewrite <- app_assoc.
Qed.

Lemma messagesToPrompt_context (xs ys : list OpenAIChatMessage)
  (fx fy : list jsstring) (m : OpenAIChatMessage) (t : jsstring) :
  for_of xs [] = Normal fx -> for_of ys [] = Normal fy ->
  extractContent (content m) = Normal t ->
  messagesToPrompt (xs ++ m :: ys)
  = Normal (trim (join [LF] (fx ++ fragment (role m) t ++ fy))).
Proof.
  intros Hx Hy Ht; unfold messagesToPrompt.
  now rewrite (for_of_context xs ys m Hx Hy Ht).
Qed.

(** ** The claims on the flattener *)

(** C3. For a content that is a sequence of parts, the extracted text is
    the concatenation, in order and without separator, of the text
    payloads of the parts of type ["text"] whose payload is defined and not
    empty. A part of type ["image_url"] contributes nothing, wherever it
    stands. The content [text "a", image_url, text "b"] is extracted as
    ["ab"], and a user message with that content flattens to ["ab"]. *)
Theorem extractContent_parts :
  (forall parts,
     extractContent (CParts parts) = Normal (concat_text_payloads parts)) /\
  (forall before after txt img,
     extractContent
       (CParts (before ++
          {| type := lit "image_url"; text := txt; image_url := img |}
          :: after))
     = extractContent (CParts (before ++ after))) /\
  extractContent
    (CParts [text_part "a"; image_part "https://example.com/x.png";
             text_part "b"])
  = Normal (lit "ab") /\
  messagesToPrompt
    [message "user"
       (CParts [text_part "a"; image_part "https://example.com/x.png";
                text_part "b"])]
  = Normal (lit "ab").
Proof.
  split; [|split; [|split; reflexivity]].
  - intros parts; simpl.
    now rewrite join_empty_sep, concat_text_payloads_filter.
  - intros before after txt img; simpl.
    rewrite !filter_app; simpl.
    reflexivity.
Qed.

(** C4. The fragment a message contributes to the prompt is determined by
    its role. Take a message anywhere in a conversation, with [text] the
    text extracted from its content, [fx] what the loop pushed for the
    messages before it and [fy] what it pushes for those after it. At the
    end of the loop the array is [fx], then
    ["<system>\n" + text + "\n</system>\n"] for a system message, [text]
    itself for a user message,
    ["<previous_response>\n" + text + "\n</previous_response>\n"] for an
    assistant message and nothing at all, without an error, for a message
    of any other role, then [fy]; and [messagesToPrompt] returns that
    array joined and trimmed. *)
Theorem fragment_by_role (xs ys : list OpenAIChatMessage)
  (fx fy : list jsstring) (c : Content) (text : jsstring) :
  for_of xs [] = Normal fx ->
  for_of ys [] = Normal fy ->
  extractContent c = Normal text ->
  (for_of (xs ++ {| role := lit "system"; content := c |} :: ys) []
   = Normal (fx ++ [lit "<system>" ++ [LF] ++ text ++ [LF] ++ lit "</system>"
                      ++ [LF]] ++ fy) /\
   messagesToPrompt (xs ++ {| role := lit "system"; content := c |} :: ys)
   = Normal (trim (join [LF]
       (fx ++ [lit "<system>" ++ [LF] ++ text ++ [LF] ++ lit "</system>"
                 ++ [LF]] ++ fy)))) /\
  (for_of (xs ++ {| role := lit "user"; content := c |} :: ys) []
   = Normal (fx ++ [text] ++ fy) /\
   messagesToPrompt (xs ++ {| role := lit "user"; content := c |} :: ys)
   = Normal (trim (join [LF] (fx ++ [text] ++ fy)))) /\
  (for_of (xs ++ {| role := lit "assistant"; content := c |} :: ys) []
   = Normal (fx ++ [lit "<previous_response>" ++ [LF] ++ text ++ [LF]
                      ++ lit "</previous_response>" ++ [LF]] ++ fy) /\
   messagesToPrompt (xs ++ {| role := lit "assistant"; content := c |} :: ys)
   = Normal (trim (join [LF]
       (fx ++ [lit "<previous_response>" ++ [LF] ++ text ++ [LF]
                 ++ lit "</previous_response>" ++ [LF]] ++ fy)))) /\
  (forall r,
     r <> lit "system" -> r <> lit "user" -> r <> lit "assistant" ->
     for_of (xs ++ {| role := r; content := c |} :: ys) []
     = Normal (fx ++ fy) /\
     messagesToPrompt (xs ++ {| role := r; content := c |} :: ys)
     = Normal (trim (join [LF] (fx ++ fy)))).
Proof.
  intros Hx Hy E.
  pose proof (fun r =>
    for_of_context xs ys {| role := r; content := c |} Hx Hy E) as F.
  pose proof (fun r =>
    messagesToPrompt_context xs ys {| role := r; content := c |} Hx Hy E) as G.
  cbn [role] in F, G.
  split; [|split; [|split]]; try (split; [apply F|apply G]).
  intros r Hs Hu Ha.
  assert (N : fragment r text = []).
  { unfold fragment; apply str_eqb_neq in Hs, Hu, Ha.
    now rewrite Hs, Hu, Ha. }
  specialize (F r); specialize (G r); rewrite N in F, G.
  now split.
Qed.

Lemma fragment_by_role_witness :
  for_of [message "user" (CString (lit "a"))] [] = Normal [lit "a"] /\
  for_of [message "user" (CString (lit "b"))] [] = Normal [lit "b"] /\
  extractContent (CParts [text_part "h"; text_part "i"]) = Normal (lit "hi") /\
  lit "tool" <> lit "system" /\
  lit "tool" <> lit "user" /\
  lit "tool" <> lit "assistant" /\
  messagesToPrompt
    [message "user" (CString (lit "a"));
     message "system" (CParts [text_part "h"; text_part "i"]);
     message "user" (CString (lit "b"))]
  = Normal (lit "a" ++ [LF] ++ lit "<system>" ++ [LF] ++ lit "hi" ++ [LF]
              ++ lit "</system>" ++ [LF] ++ [LF] ++ lit "b") /\
  messagesToPrompt
    [message "user" (CString (lit "a"));
     message "tool" (CParts [text_part "h"; text_part "i"]);
     message "user" (CString (lit "b"))]
  = Normal (lit "a" ++ [LF] ++ lit "b").
Proof.
  do 6 (split; [first [reflexivity | discriminate]|]).
  destruct (fragment_by_role
              [message "user" (CString (lit "a"))]
              [message "user" (CString (lit "b"))]
              (fx := [lit "a"]) (fy := [lit "b"])
              (CParts [text_part "h"; text_part "i"]) (text := lit "hi")
              eq_refl eq_refl eq_refl)
    as ((_ & Hsys) & _ & _ & Hother).
  split; [exact Hsys|].
  apply (Hother (lit "tool")); discriminate.
Defined.

(** C5. The prompt is the produced fragments, in message order, joined
    with one newline and then trimmed of leading and trailing white space:
    the joined string is the prompt between two runs of white space, and
    the prompt neither starts nor ends with white space. It is the empty
    string for no message; [system:"S", user:"U"] gives the system block,
    a blank line, then ["U"]; and a user text ["  U  "] followed by a
    system message loses its two leading spaces at one end and the
    newline that closes the block at the other. *)
Theorem messagesToPrompt_joins_fragments :
  (forall messages texts,
     Forall2 (fun m t => extractContent (content m) = Normal t)
       messages texts ->
     exists p l r,
       messagesToPrompt messages = Normal p /\
       p = trim (join [LF] (fragments messages texts)) /\
       join [LF] (fragments messages texts) = l ++ p ++ r /\
       forallb is_white_space l = true /\
       forallb is_white_space r = true /\
       (forall c s, p = c :: s -> is_white_space c = false) /\
       (forall s c, p = s ++ [c] -> is_white_space c = false)) /\
  messagesToPrompt [] = Normal [] /\
  messagesToPrompt
    [message "system" (CString (lit "S")); message "user" (CString (lit "U"))]
  = Normal (lit "<system>" ++ [LF] ++ lit "S" ++ [LF] ++ lit "</system>"
              ++ [LF] ++ [LF] ++ lit "U") /\
  messagesToPrompt
    [message "user" (CString (lit "  U  "));
     message "system" (CString (lit "S"))]
  = Normal (lit "U  " ++ [LF] ++ lit "<system>" ++ [LF] ++ lit "S" ++ [LF]
              ++ lit "</system>").
Proof.
  split; [|split; [|split]]; try reflexivity.
  intros messages texts H.
  destruct (trim_decompose (join [LF] (fragments messages texts)))
    as (l & r & E & Hl & Hr).
  exists (trim (join [LF] (fragments messages texts))), l, r.
  split; [exact (messagesToPrompt_flatten H)|].
  split; [reflexivity|].
  split; [exact E|].
  split; [exact Hl|].
  split; [exact Hr|].
  split; intros ? ? Hp.
  - eapply trim_head; exact Hp.
  - eapply trim_last; exact Hp.
Qed.

Lemma messagesToPrompt_joins_fragments_witness :
  Forall2 (fun m t => extractContent (content m) = Normal t)
    [message "user" (CString (lit " A")); message "assistant" (CParts [])]
    [lit " A"; []] /\
  exists p l r,
    messagesToPrompt
      [message "user" (CString (lit " A")); message "assistant" (CParts [])]
    = Normal p /\
    p = trim (join [LF]
          (fragments
             [message "user" (CString (lit " A"));
              message "assistant" (CParts [])]
             [lit " A"; []])) /\
    join [LF]
      (fragments
         [message "user" (CString (lit " A"));
          message "assistant" (CParts [])]
         [lit " A"; []]) = l ++ p ++ r /\
    forallb is_white_space l = true /\
    forallb is_white_space r = true /\
    (forall c s, p = c :: s -> is_white_space c = false) /\
    (forall s c, p = s ++ [c] -> is_white_space c = false).
Proof.
  split; [repeat constructor|].
  apply (proj1 messagesToPrompt_joins_fragments).
  repeat constructor.
Defined.

(** C9. When no part of an array content is of type ["text"] with a
    defined, non-empty payload, the extracted text is the empty string; a
    system or assistant message with that content still emits its wrapper,
    around an empty body, and a single such system message flattens to
    ["<system>\n\n</system>"]. *)
Theorem empty_parts_keep_wrapper (parts : list OpenAIContentPart) :
  (forall part, In part parts ->
     ~ (type part = lit "text" /\
        exists t, text part = Some t /\ t <> [])) ->
  extractContent (CParts parts) = Normal [] /\
  for_of [message "system" (CParts parts)] []
    = Normal [lit "<system>" ++ [LF] ++ [LF] ++ lit "</system>" ++ [LF]] /\
  for_of [message "assistant" (CParts parts)] []
    = Normal [lit "<previous_response>" ++ [LF] ++ [LF]
                ++ lit "</previous_response>" ++ [LF]] /\
  messagesToPrompt [message "system" (CParts parts)]
    = Normal (lit "<system>" ++ [LF] ++ [LF] ++ lit "</system>") /\
  messagesToPrompt [message "assistant" (CParts parts)]
    = Normal (lit "<previous_response>" ++ [LF] ++ [LF]
                ++ lit "</previous_response>").
Proof.
  intros H.
  assert (E : extractContent (CParts parts) = Normal []).
  { simpl; rewrite filter_none; [reflexivity|].
    intros part Hin; specialize (H part Hin).
    destruct (is_text_part part) eqn:Ep; [|reflexivity].
    now apply is_text_part_spec in Ep. }
  split; [exact E|].
  assert (F : forall r,
    Forall2 (fun m t => extractContent (content m) = Normal t)
      [message r (CParts parts)] [[]]) by (intros r; repeat constructor; exact E).
  repeat split.
  - now rewrite (for_of_fragments (F "system"%string) []).
  - now rewrite (for_of_fragments (F "assistant"%string) []).
  - now rewrite (messagesToPrompt_flatten (F "system"%string)).
  - now rewrite (messagesToPrompt_flatten (F "assistant"%string)).
Qed.

Lemma empty_parts_keep_wrapper_witness :
  (forall part,
     In part [image_part "https://example.com/x.png"; text_part EmptyString] ->
     ~ (type part = lit "text" /\
        exists t, text part = Some t /\ t <> [])) /\
  messagesToPrompt
    [message "system"
       (CParts [image_part "https://example.com/x.png";
                text_part EmptyString])]
  = Normal (lit "<system>" ++ [LF] ++ [LF] ++ lit "</system>").
Proof.
  assert (H : forall part,
     In part [image_part "https://example.com/x.png"; text_part EmptyString] ->
     ~ (type part = lit "text" /\
        exists t, text part = Some t /\ t <> [])).
  { intros part [<-|[<-|[]]] (Hty & t & Ht & Hne).
    - discriminate Hty.
    - injection Ht as <-; now apply Hne. }
  split; [exact H|].
  apply (empty_parts_keep_wrapper
           [image_part "https://example.com/x.png"; text_part EmptyString] H).
Defined.

(** C10. A user message whose extracted text is empty, whatever its
    content, still contributes a fragment, the empty string, where a
    message of an unknown role contributes none: anywhere in a
    conversation the loop pushes the empty string for it, so between the
    user messages "a" and "b" it leaves a blank line and the prompt is
    ["a\n\nb"], while without it, or with a message of an unknown role in
    its place, the prompt is ["a\nb"]. *)
Theorem empty_user_message_keeps_its_line (c : Content) :
  extractContent c = Normal [] ->
  (forall xs ys fx fy,
     for_of xs [] = Normal fx -> for_of ys [] = Normal fy ->
     for_of (xs ++ {| role := lit "user"; content := c |} :: ys) []
     = Normal (fx ++ [[]] ++ fy) /\
     (forall r,
        r <> lit "system" -> r <> lit "user" -> r <> lit "assistant" ->
        for_of (xs ++ {| role := r; content := c |} :: ys) []
        = Normal (fx ++ fy))) /\
  messagesToPrompt
    [message "user" (CString (lit "a")); message "user" c;
     message "user" (CString (lit "b"))]
  = Normal (lit "a" ++ [LF] ++ [LF] ++ lit "b") /\
  messagesToPrompt
    [message "user" (CString (lit "a")); message "user" (CString (lit "b"))]
  = Normal (lit "a" ++ [LF] ++ lit "b") /\
  messagesToPrompt
    [message "user" (CString (lit "a")); message "tool" c;
     message "user" (CString (lit "b"))]
  = Normal (lit "a" ++ [LF] ++ lit "b") /\
  (forall parts,
     loop_body parts (message "user" c) = Normal (parts ++ [[]])) /\
  (forall parts,
     loop_body parts (message "tool" c) = Normal parts).
Proof.
  intros E.
  assert (F : forall r,
    Forall2 (fun m t => extractContent (content m) = Normal t)
      [message "user" (CString (lit "a")); message r c;
       message "user" (CString (lit "b"))]
      [lit "a"; []; lit "b"]) by (intros r; repeat constructor; exact E).
  split; [|split; [|split; [|split; [|split]]]].
  - intros xs ys fx fy Hx Hy; split.
    + exact (for_of_context xs ys {| role := lit "user"; content := c |}
               Hx Hy E).
    + intros r Hs Hu Ha.
      rewrite (for_of_context xs ys {| role := r; content := c |} Hx Hy E).
      unfold fragment; cbn [role].
      apply str_eqb_neq in Hs, Hu, Ha; now rewrite Hs, Hu, Ha.
  - now rewrite (messagesToPrompt_flatten (F "user"%string)).
  - reflexivity.
  - now rewrite (messagesToPrompt_flatten (F "tool"%string)).
  - intros parts.
    now rewrite (loop_body_fragment parts (message "user" c) E).
  - intros parts.
    rewrite (loop_body_fragment parts (message "tool" c) E).
    apply f_equal, app_nil_r.
Qed.

Lemma empty_user_message_keeps_its_line_witness :
  extractContent
    (CParts [image_part "https://example.com/x.png"; text_part EmptyString])
  = Normal [] /\
  messagesToPrompt
    [message "user" (CString (lit "a"));
     message "user"
       (CParts [image_part "https://example.com/x.png";
                text_part EmptyString]);
     message "user" (CString (lit "b"))]
  = Normal (lit "a" ++ [LF] ++ [LF] ++ lit "b") /\
  messagesToPrompt
    [message "user" (CString (lit "a"));
     message "tool"
       (CParts [image_part "https://example.com/x.png";
                text_part EmptyString]);
     message "user" (CString (lit "b"))]
  = Normal (lit "a" ++ [LF] ++ lit "b").
Proof.
  split; [reflexivity|].
  destruct (empty_user_message_keeps_its_line
              (CParts [image_part "https://example.com/x.png";
                       text_part EmptyString]) eq_refl)
    as (_ & Huser & _ & Htool & _).
  split; [exact Huser|exact Htool].
Defined.

End PromptFlattener.

(* ================================================================== *)
(** * The request converter *)
(* ================================================================== *)

Section RequestConverter.

Lemma openaiToCli_Normal (request : OpenAIChatRequest) (p : jsstring) :
  messagesToPrompt (messages request) = Normal p ->
  openaiToCli request
  = Normal {| prompt := p;
              model := extractModel (OpenAI.model request);
              sessionId := user request |}.
Proof. intros E; unfold openaiToCli; now rewrite E. Qed.

Lemma messagesToPrompt_total (ms : list OpenAIChatMessage) :
  Forall (fun m => convertible_content (content m) = true) ms ->
  exists p, messagesToPrompt ms = Normal p.
Proof.
  intros H; destruct (extract_all H) as [texts Ht].
  eexists; exact (messagesToPrompt_flatten Ht).
Qed.

Lemma declared_convertible (c : Content) :
  declared_content c = true -> convertible_content c = true.
Proof. now destruct c. Qed.

(** X13. A message whose content cannot be converted to a string aborts
    the conversion with a [TypeError], wherever it stands and whatever its
    role: the content is extracted before the role is looked at, so a
    message that would contribute no fragment aborts it as well. *)
Lemma openaiToCli_throws_on_unconvertible (request : OpenAIChatRequest) :
  Exists (fun m => convertible_content (content m) = false)
    (messages request) ->
  openaiToCli request = Throw TypeError.
Proof.
  intros H; unfold openaiToCli, messagesToPrompt.
  now rewrite (for_of_throw H).
Qed.

(** C2 (the code departs from the claim). [extractModel] returns a value
    for every string, but not always one of the three aliases: for
    ["toString"] it returns the function every object literal inherits
    under that name, and [openaiToCli] stores that function in the field
    [model] of the record it returns. *)
Theorem extractModel_toString_no_ClaudeModel :
  extractModel (lit "toString") = VBuiltin "%Object.prototype.toString%" /\
  (forall m : ClaudeModel, extractModel (lit "toString") <> VString (alias m)) /\
  openaiToCli (request_of "toString" [] None)
  = Normal {| prompt := [];
              model := VBuiltin "%Object.prototype.toString%";
              sessionId := None |}.
Proof. repeat split; try reflexivity; intros m; discriminate. Qed.

(** C6. For every request of the declared shape, [openaiToCli] returns the
    record made of [messagesToPrompt] of its messages, [extractModel] of
    its model and its [user] field as [sessionId]: ["abc"] stays ["abc"]
    and an absent [user] gives an absent [sessionId]. *)
Theorem openaiToCli_record :
  (forall request,
     Forall (fun m => declared_content (content m) = true)
       (messages request) ->
     exists p,
       messagesToPrompt (messages request) = Normal p /\
       openaiToCli request
       = Normal {| prompt := p;
                   model := extractModel (OpenAI.model request);
                   sessionId := user request |}) /\
  (forall request cli,
     openaiToCli request = Normal cli ->
     (user request = Some (lit "abc") -> sessionId cli = Some (lit "abc")) /\
     (user request = None -> sessionId cli = None)).
Proof.
  split.
  - intros request H.
    assert (F : Forall (fun m => convertible_content (content m) = true)
                  (messages request)).
    { eapply Forall_impl; [|exact H]; intros m; apply declared_convertible. }
    destruct (messagesToPrompt_total F) as [p Hp].
    exists p; split; [exact Hp|exact (openaiToCli_Normal _ Hp)].
  - intros request cli; unfold openaiToCli.
    destruct (messagesToPrompt (messages request)); simpl; [|discriminate].
    intros [= <-]; simpl; split; intros ->; reflexivity.
Qed.

Lemma openaiToCli_record_witness :
  Forall (fun m => declared_content (content m) = true)
    (messages (request_of "sonnet" [message "user" (CString (lit "hello"))]
                 (Some (lit "abc")))) /\
  exists p,
    messagesToPrompt
      (messages (request_of "sonnet" [message "user" (CString (lit "hello"))]
                   (Some (lit "abc")))) = Normal p /\
    openaiToCli
      (request_of "sonnet" [message "user" (CString (lit "hello"))]
         (Some (lit "abc")))
    = Normal {| prompt := p;
                model := extractModel (lit "sonnet");
                sessionId := Some (lit "abc") |}.
Proof.
  split; [repeat constructor|].
  apply (proj1 openaiToCli_record
           (request_of "sonnet" [message "user" (CString (lit "hello"))]
              (Some (lit "abc")))).
  repeat constructor.
Defined.

(** C7. The conversion is a function of the fields [model], [messages] and
    [user] alone: equal requests give equal results, and so do two
    requests that agree on these three fields, whatever their [stream],
    [temperature], [max_tokens], [top_p], [frequency_penalty] and
    [presence_penalty]. *)
Theorem openaiToCli_reads_three_fields :
  (forall r1 r2 : OpenAIChatRequest,
     r1 = r2 -> openaiToCli r1 = openaiToCli r2) /\
  (forall r1 r2 : OpenAIChatRequest,
     OpenAI.model r1 = OpenAI.model r2 ->
     messages r1 = messages r2 ->
     user r1 = user r2 ->
     openaiToCli r1 = openaiToCli r2).
Proof.
  split; [now intros r1 r2 ->|].
  intros r1 r2 Hm Hs Hu; unfold openaiToCli.
  now rewrite Hm, Hs, Hu.
Qed.

Lemma openaiToCli_reads_three_fields_witness :
  let r1 :=
    {| OpenAI.model := lit "claude-haiku-4";
       messages := [message "user" (CString (lit "hello"))];
       stream := Some true;
       temperature := Some (Number (lit "0.7"));
       max_tokens := Some (Number (lit "256"));
       top_p := None;
       frequency_penalty := None;
       presence_penalty := Some (Number (lit "1"));
       user := Some (lit "abc") |} in
  let r2 :=
    request_of "claude-haiku-4" [message "user" (CString (lit "hello"))]
      (Some (lit "abc")) in
  r1 <> r2 /\
  OpenAI.model r1 = OpenAI.model r2 /\
  messages r1 = messages r2 /\
  user r1 = user r2 /\
  openaiToCli r1 = openaiToCli r2.
Proof.
  intros r1 r2.
  split; [discriminate|].
  repeat (split; [reflexivity|]).
  apply (proj2 openaiToCli_reads_three_fields r1 r2); reflexivity.
Defined.

(** C8, as stated, fails: a content that is an object with an own
    property [toString] holding data (here [{"toString": 1}], as
    [JSON.parse] builds it) is neither a string nor an array, and
    [String (content)] throws a [TypeError] for it, which aborts
    [extractContent], [messagesToPrompt] and [openaiToCli]. *)
Lemma extractContent_throws :
  extractContent
    (COther (Object [(lit "toString", JNumber (Number (lit "1")))]))
  = Throw TypeError /\
  messagesToPrompt
    [message "user"
       (COther (Object [(lit "toString", JNumber (Number (lit "1")))]))]
  = Throw TypeError /\
  openaiToCli
    (request_of "opus"
       [message "user"
          (COther (Object [(lit "toString", JNumber (Number (lit "1")))]))]
       None)
  = Throw TypeError /\
  ~ (forall v : nonstring,
       exists text, extractContent (COther v) = Normal text).
Proof.
  repeat split; try reflexivity.
  intros H.
  destruct (H (Object [(lit "toString", JNumber (Number (lit "1")))]))
    as [text Ht].
  discriminate Ht.
Qed.

(** C8, amended. The conversion returns a record for every request of the
    declared shape. A content that is neither a string nor a sequence of
    parts is extracted as its textual representation when it is
    [undefined], [null], a boolean, a number, or an object without an own
    property [toString], and a request whose contents are of the declared
    shape or of these kinds is converted without an error. *)
Theorem conversion_total_on_convertible :
  (forall request,
     Forall (fun m => declared_content (content m) = true)
       (messages request) ->
     exists cli, openaiToCli request = Normal cli) /\
  extractContent (COther Undefined) = Normal (lit "undefined") /\
  extractContent (COther Null) = Normal (lit "null") /\
  extractContent (COther (Boolean true)) = Normal (lit "true") /\
  extractContent (COther (Boolean false)) = Normal (lit "false") /\
  (forall n, extractContent (COther (Num n)) = Normal (Number_toString n)) /\
  (forall properties,
     assoc (lit "toString") properties = None ->
     extractContent (COther (Object properties))
     = Normal (lit "[object Object]")) /\
  (forall request,
     Forall (fun m => convertible_content (content m) = true)
       (messages request) ->
     exists cli, openaiToCli request = Normal cli).
Proof.
  assert (T : forall request,
     Forall (fun m => convertible_content (content m) = true)
       (messages request) ->
     exists cli, openaiToCli request = Normal cli).
  { intros request F.
    destruct (messagesToPrompt_total F) as [p Hp].
    eexists; exact (openaiToCli_Normal _ Hp). }
  split; [|repeat split; try reflexivity].
  - intros request H; apply T.
    eapply Forall_impl; [|exact H]; intros m; apply declared_convertible.
  - intros properties H; simpl; unfold OrdinaryToPrimitive; now rewrite H.
  - exact T.
Qed.

Lemma conversion_total_on_convertible_witness :
  Forall (fun m => convertible_content (content m) = true)
    (messages
       (request_of "opus"
          [message "user" (COther Null);
           message "system"
             (COther (Object [(lit "valueOf", JBoolean true)]))]
          None)) /\
  exists cli,
    openaiToCli
      (request_of "opus"
         [message "user" (COther Null);
          message "system"
            (COther (Object [(lit "valueOf", JBoolean true)]))]
         None)
    = Normal cli.
Proof.
  split; [repeat constructor|].
  apply conversion_total_on_convertible.
  repeat constructor.
Defined.

End RequestConverter.

(* ================================================================== *)
(** * Further properties of the resolver *)
(* ================================================================== *)

Section ResolverProperties.

(** No inherited property name starts with the provider prefix. *)
Lemma prefixed_not_inherited (s : jsstring) :
  inherited (provider_prefix ++ s) = false.
Proof. reflexivity. Qed.

(** The prefixed keys of the table are the bare model names behind the
    prefix, with the same alias. *)
Lemma prefixed_lookup (s a : jsstring) :
  assoc (provider_prefix ++ s) MODEL_MAP = Some a ->
  assoc s MODEL_MAP = Some a.
Proof.
  intros H; apply assoc_In in H.
  unfold MODEL_MAP in H; simpl in H.
  repeat (destruct H as [H|H];
          [cbv in H; inversion H; subst; reflexivity|]).
  contradiction.
Qed.

(** X1. What the resolver returns as a string resolves to itself: an
    alias that went through [extractModel] once is not changed by a
    second pass. *)
Theorem extractModel_fixed_point (model a : jsstring) :
  extractModel model = VString a -> extractModel a = VString a.
Proof.
  intros H.
  destruct (extractModel_cases model) as [[m Hm]|(b & Hb & _)];
    rewrite H in *; [|discriminate].
  injection Hm as ->; destruct m; reflexivity.
Qed.

Lemma extractModel_fixed_point_witness :
  extractModel (lit "claude-code-cli/claude-sonnet-4") = VString (lit "sonnet") /\
  extractModel (lit "sonnet") = VString (lit "sonnet").
Proof.
  split; [reflexivity|].
  apply (extractModel_fixed_point (lit "claude-code-cli/claude-sonnet-4"));
    reflexivity.
Defined.

(** X2. The provider prefix is transparent: for a name that does not
    itself start with ["claude-code-cli/"], the name behind the prefix
    resolves exactly as the bare name does, whether that is a table alias,
    the default or an inherited property. *)
Theorem extractModel_prefix_transparent (s : jsstring) :
  strip_prefix provider_prefix s = None ->
  extractModel (provider_prefix ++ s) = extractModel s.
Proof.
  intros Hs; unfold extractModel.
  rewrite replace_prefix_app.
  assert (R : replace_prefix provider_prefix s = s)
    by (unfold replace_prefix; now rewrite Hs).
  rewrite R.
  destruct (assoc (provider_prefix ++ s) MODEL_MAP) as [a|] eqn:E.
  - destruct (Get_MODEL_MAP_own _ E) as [G T]; rewrite T, G.
    destruct (Get_MODEL_MAP_own _ (prefixed_lookup _ E)) as [G' T'].
    now rewrite T', G'.
  - rewrite (Get_MODEL_MAP_miss _ E (prefixed_not_inherited s)); simpl.
    now destruct (ToBoolean (Get MODEL_MAP s)).
Qed.

Lemma extractModel_prefix_transparent_witness :
  strip_prefix provider_prefix (lit "haiku") = None /\
  extractModel (provider_prefix ++ lit "haiku") = extractModel (lit "haiku").
Proof.
  split; [reflexivity|].
  apply (extractModel_prefix_transparent (lit "haiku")); reflexivity.
Defined.

(** X3. The resolver never returns [undefined] or the empty string: its
    result is truthy for every input, so the field [model] of a converted
    request is never missing. *)
Theorem extractModel_truthy (model : jsstring) :
  ToBoolean (extractModel model) = true.
Proof.
  destruct (extractModel_cases model) as [[m ->]|(b & -> & _)];
    [destruct m|]; reflexivity.
Qed.

End ResolverProperties.

(* ================================================================== *)
(** * Further properties of the flattener *)
(* ================================================================== *)

Section FlattenerProperties.

(** ** More on [trim] and [join] *)

Lemma trimEnd_app_white_space (s : jsstring) (w : codeunit) :
  is_white_space w = true -> trimEnd (s ++ [w]) = trimEnd s.
Proof.
  intros Hw; induction s as [|a s IH]; simpl; [now rewrite Hw|].
  now rewrite IH.
Qed.

(** A string without white space at either end is a fixed point of
    [trim]. *)
Lemma trim_id (s : jsstring) :
  (forall c r, s = c :: r -> is_white_space c = false) ->
  (forall r c, s = r ++ [c] -> is_white_space c = false) ->
  trim s = s.
Proof.
  intros Hhead Hlast; unfold trim.
  destruct s as [|a s]; [reflexivity|].
  simpl trimStart; rewrite (Hhead a s eq_refl).
  destruct (exists_last (l := a :: s)) as (r & c & E); [discriminate|].
  rewrite E; apply trimEnd_fixed; exact (Hlast r c E).
Qed.

Lemma trim_idempotent (s : jsstring) : trim (trim s) = trim s.
Proof.
  apply trim_id; intros ? ? E.
  - eapply trim_head; exact E.
  - eapply trim_last; exact E.
Qed.

(** A block that ends in a newline after a visible character loses that
    newline and nothing else. *)
Lemma trim_block (a : codeunit) (body : jsstring) (c : codeunit) :
  is_white_space a = false -> is_white_space c = false ->
  trim (a :: body ++ [c] ++ [LF]) = a :: body ++ [c].
Proof.
  intros Ha Hc; unfold trim; simpl trimStart; rewrite Ha.
  transitivity (trimEnd (((a :: body) ++ [c]) ++ [LF])).
  - f_equal; simpl; now rewrite <- app_assoc.
  - rewrite trimEnd_app_white_space by reflexivity.
    exact (trimEnd_fixed (a :: body) c Hc).
Qed.

(** Two neighbours of an array joined beforehand with the separator give
    the same joined string. *)
Lemma join_merge (sep : jsstring) (l1 : list jsstring) (a b : jsstring)
  (l2 : list jsstring) :
  join sep (l1 ++ a :: b :: l2) = join sep (l1 ++ (a ++ sep ++ b) :: l2).
Proof.
  induction l1 as [|x l1 IH].
  - simpl; destruct l2; [reflexivity|].
    now rewrite <- !app_assoc.
  - change ((x :: l1) ++ a :: b :: l2) with (x :: (l1 ++ a :: b :: l2)).
    change ((x :: l1) ++ (a ++ sep ++ b) :: l2)
      with (x :: (l1 ++ (a ++ sep ++ b) :: l2)).
    destruct l1 as [|y l1]; simpl in *; now rewrite IH.
Qed.

(** Replacing one message by another that makes the same iteration of the
    loop does not change the prompt. *)
Lemma messagesToPrompt_replace (xs ys : list OpenAIChatMessage)
  (m1 m2 : OpenAIChatMessage) :
  (forall parts, loop_body parts m1 = loop_body parts m2) ->
  messagesToPrompt (xs ++ m1 :: ys) = messagesToPrompt (xs ++ m2 :: ys).
Proof.
  intros H; unfold messagesToPrompt; rewrite !for_of_app.
  destruct (for_of xs []) as [p|e]; simpl; [|reflexivity].
  now rewrite H.
Qed.

Lemma messagesToPrompt_remove (xs ys : list OpenAIChatMessage)
  (m : OpenAIChatMessage) :
  (forall parts, loop_body parts m = Normal parts) ->
  messagesToPrompt (xs ++ m :: ys) = messagesToPrompt (xs ++ ys).
Proof.
  intros H; unfold messagesToPrompt; rewrite !for_of_app.
  destruct (for_of xs []) as [p|e]; simpl; [|reflexivity].
  now rewrite H.
Qed.

(** A message of an unknown role whose content can be extracted leaves
    the array as it is. *)
Lemma loop_body_unknown_role (parts : list jsstring) (m : OpenAIChatMessage) :
  role m <> lit "system" -> role m <> lit "user" ->
  role m <> lit "assistant" ->
  convertible_content (content m) = true ->
  loop_body parts m = Normal parts.
Proof.
  intros Hs Hu Ha Hc.
  apply extractContent_convertible in Hc as [t Ht].
  rewrite (loop_body_fragment parts m Ht); unfold fragment.
  apply str_eqb_neq in Hs, Hu, Ha; rewrite Hs, Hu, Ha.
  now rewrite app_nil_r.
Qed.

(** ** Properties of the prompt *)

(** X4. A conversation made of one system message, or of one assistant
    message, gives the wrapper without the newline that closes it: the
    final [trim] removes that newline and nothing else, whatever the
    text. *)
Theorem messagesToPrompt_single_block (c : Content) (t : jsstring) :
  extractContent c = Normal t ->
  messagesToPrompt [{| role := lit "system"; content := c |}]
    = Normal (lit "<system>" ++ [LF] ++ t ++ [LF] ++ lit "</system>") /\
  messagesToPrompt [{| role := lit "assistant"; content := c |}]
    = Normal (lit "<previous_response>" ++ [LF] ++ t ++ [LF]
                ++ lit "</previous_response>").
Proof.
  intros E.
  assert (F : forall r,
    Forall2 (fun m x => extractContent (content m) = Normal x)
      [{| role := r; content := c |}] [t]) by (repeat constructor; exact E).
  split.
  - rewrite (messagesToPrompt_flatten (F (lit "system"))); f_equal.
    change (flatten [{| role := lit "system"; content := c |}] [t])
      with (trim (lit "<system>" ++ [LF] ++ t ++ [LF] ++ lit "</system>"
                    ++ [LF])).
    set (body := lit "system>" ++ LF :: t ++ LF :: lit "</system").
    replace (lit "<system>" ++ [LF] ++ t ++ [LF] ++ lit "</system>" ++ [LF])
      with (60%N :: body ++ [62%N] ++ [LF]) by (unfold body; list_normal).
    replace (lit "<system>" ++ [LF] ++ t ++ [LF] ++ lit "</system>")
      with (60%N :: body ++ [62%N]) by (unfold body; list_normal).
    now apply trim_block.
  - rewrite (messagesToPrompt_flatten (F (lit "assistant"))); f_equal.
    change (flatten [{| role := lit "assistant"; content := c |}] [t])
      with (trim (lit "<previous_response>" ++ [LF] ++ t ++ [LF]
                    ++ lit "</previous_response>" ++ [LF])).
    set (body := lit "previous_response>" ++ LF :: t ++ LF
                   :: lit "</previous_response").
    replace (lit "<previous_response>" ++ [LF] ++ t ++ [LF]
               ++ lit "</previous_response>" ++ [LF])
      with (60%N :: body ++ [62%N] ++ [LF]) by (unfold body; list_normal).
    replace (lit "<previous_response>" ++ [LF] ++ t ++ [LF]
               ++ lit "</previous_response>")
      with (60%N :: body ++ [62%N]) by (unfold body; list_normal).
    now apply trim_block.
Qed.

Lemma messagesToPrompt_single_block_witness :
  extractContent (CString (lit " be nice ")) = Normal (lit " be nice ") /\
  messagesToPrompt [message "system" (CString (lit " be nice "))]
    = Normal (lit "<system>" ++ [LF] ++ lit " be nice " ++ [LF]
                ++ lit "</system>").
Proof.
  split; [reflexivity|].
  apply (messagesToPrompt_single_block (CString (lit " be nice "))
           (t := lit " be nice ")).
  reflexivity.
Defined.

(** X5. The flattener does not escape the markers it writes: a user
    message whose text is a system block is flattened, at any place of any
    conversation, exactly as the system message with that text, so the
    role of a message cannot be told from the prompt. *)
Theorem user_text_passes_for_system_block (xs ys : list OpenAIChatMessage)
  (t : jsstring) :
  messagesToPrompt
    (xs ++ {| role := lit "user";
              content := CString (lit "<system>" ++ [LF] ++ t ++ [LF]
                                    ++ lit "</system>" ++ [LF]) |} :: ys)
  = messagesToPrompt
      (xs ++ {| role := lit "system"; content := CString t |} :: ys).
Proof. apply messagesToPrompt_replace; intros parts; reflexivity. Qed.

(** X6. A message whose role is none of the three and whose content can
    be extracted may be removed from any place of a conversation without
    changing the result. *)
Theorem unknown_role_is_transparent (xs ys : list OpenAIChatMessage)
  (m : OpenAIChatMessage) :
  role m <> lit "system" -> role m <> lit "user" ->
  role m <> lit "assistant" ->
  convertible_content (content m) = true ->
  messagesToPrompt (xs ++ m :: ys) = messagesToPrompt (xs ++ ys).
Proof.
  intros Hs Hu Ha Hc; apply messagesToPrompt_remove; intros parts.
  now apply loop_body_unknown_role.
Qed.

Lemma unknown_role_is_transparent_witness :
  role (message "tool" (COther Null)) <> lit "system" /\
  role (message "tool" (COther Null)) <> lit "user" /\
  role (message "tool" (COther Null)) <> lit "assistant" /\
  convertible_content (content (message "tool" (COther Null))) = true /\
  messagesToPrompt
    ([message "user" (CString (lit "a"))]
       ++ message "tool" (COther Null) :: [message "user" (CString (lit "b"))])
  = messagesToPrompt
      ([message "user" (CString (lit "a"))]
         ++ [message "user" (CString (lit "b"))]).
Proof.
  repeat (split; [first [discriminate | reflexivity]|]).
  apply (unknown_role_is_transparent
           [message "user" (CString (lit "a"))]
           [message "user" (CString (lit "b"))]
           (message "tool" (COther Null)));
    first [discriminate | reflexivity].
Defined.

(** X7. A conversation in which no message has one of the three roles,
    all contents being extractable, gives the empty prompt. *)
Theorem unknown_roles_give_empty_prompt (ms : list OpenAIChatMessage) :
  Forall (fun m => role m <> lit "system" /\ role m <> lit "user" /\
                   role m <> lit "assistant" /\
                   convertible_content (content m) = true) ms ->
  messagesToPrompt ms = Normal [].
Proof.
  induction 1 as [|m ms (Hs & Hu & Ha & Hc) _ IH]; [reflexivity|].
  rewrite <- IH.
  apply (messagesToPrompt_remove [] ms m); intros parts.
  now apply loop_body_unknown_role.
Qed.

Lemma unknown_roles_give_empty_prompt_witness :
  Forall (fun m => role m <> lit "system" /\ role m <> lit "user" /\
                   role m <> lit "assistant" /\
                   convertible_content (content m) = true)
    [message "tool" (CString (lit "x")); message "function" (COther Undefined)]
  /\
  messagesToPrompt
    [message "tool" (CString (lit "x")); message "function" (COther Undefined)]
  = Normal [].
Proof.
  assert (H : Forall (fun m => role m <> lit "system" /\ role m <> lit "user"
                   /\ role m <> lit "assistant" /\
                   convertible_content (content m) = true)
    [message "tool" (CString (lit "x"));
     message "function" (COther Undefined)]).
  { repeat constructor; discriminate. }
  split; [exact H|].
  exact (unknown_roles_give_empty_prompt H).
Defined.

(** X8. A prompt is a fixed point of the flattener: sent back as the one
    user message of a conversation it is returned unchanged. *)
Theorem prompt_flattens_to_itself (ms : list OpenAIChatMessage)
  (p : jsstring) :
  messagesToPrompt ms = Normal p ->
  messagesToPrompt [{| role := lit "user"; content := CString p |}]
  = Normal p.
Proof.
  unfold messagesToPrompt at 1.
  destruct (for_of ms []) as [parts|e]; simpl; [|discriminate].
  intros [= <-].
  change (messagesToPrompt
            [{| role := lit "user";
                content := CString (trim (join [LF] parts)) |}])
    with (Normal (trim (trim (join [LF] parts)))).
  now rewrite trim_idempotent.
Qed.

Lemma prompt_flattens_to_itself_witness :
  messagesToPrompt
    [message "system" (CString (lit "S")); message "user" (CString (lit " U "))]
  = Normal (lit "<system>" ++ [LF] ++ lit "S" ++ [LF] ++ lit "</system>"
              ++ [LF] ++ [LF] ++ lit " U") /\
  messagesToPrompt
    [message "user"
       (CString (lit "<system>" ++ [LF] ++ lit "S" ++ [LF] ++ lit "</system>"
                   ++ [LF] ++ [LF] ++ lit " U"))]
  = Normal (lit "<system>" ++ [LF] ++ lit "S" ++ [LF] ++ lit "</system>"
              ++ [LF] ++ [LF] ++ lit " U").
Proof.
  split; [reflexivity|].
  apply (prompt_flattens_to_itself
           [message "system" (CString (lit "S"));
            message "user" (CString (lit " U "))]).
  reflexivity.
Defined.

(** X9. A text cut into parts of type ["text"] is extracted as the text
    itself: an array of text parts and the string that concatenates their
    payloads are the same content to the flattener. *)
Theorem text_parts_equal_their_concatenation (ts : list jsstring) :
  extractContent
    (CParts (map (fun t => {| type := lit "text"; text := Some t;
                              image_url := None |}) ts))
  = extractContent (CString (List.concat ts)).
Proof.
  simpl; f_equal.
  rewrite join_empty_sep, <- concat_text_payloads_filter.
  induction ts as [|t ts IH]; simpl; [reflexivity|].
  rewrite IH; now destruct t.
Qed.

(** X10. Two user messages in a row are flattened as the one user message
    that holds their texts on two lines: the boundary between messages of
    the same kind is not kept. *)
Theorem consecutive_user_messages_merge (xs ys : list OpenAIChatMessage)
  (a b : jsstring) :
  messagesToPrompt
    (xs ++ {| role := lit "user"; content := CString a |}
        :: {| role := lit "user"; content := CString b |} :: ys)
  = messagesToPrompt
      (xs ++ {| role := lit "user"; content := CString (a ++ [LF] ++ b) |}
          :: ys).
Proof.
  unfold messagesToPrompt; rewrite !for_of_app.
  destruct (for_of xs []) as [p|e]; simpl; [|reflexivity].
  change (loop_body p {| role := lit "user"; content := CString a |})
    with (Normal (p ++ [a])).
  change (loop_body p
            {| role := lit "user"; content := CString (a ++ LF :: b) |})
    with (Normal (p ++ [a ++ LF :: b])).
  simpl.
  change (loop_body (p ++ [a]) {| role := lit "user"; content := CString b |})
    with (Normal ((p ++ [a]) ++ [b])).
  simpl.
  set (l1 := (p ++ [a]) ++ [b]); set (l2 := p ++ [_]).
  rewrite (for_of_shift ys l1), (for_of_shift ys l2).
  destruct (for_of ys []) as [fs|e]; simpl; [|reflexivity].
  do 2 f_equal; unfold l1, l2.
  rewrite <- !app_assoc; simpl.
  exact (join_merge [LF] p a b fs).
Qed.

Lemma messagesToPrompt_trimmed_witness :
  messagesToPrompt [message "user" (CString (lit "  hi  "))]
  = Normal (lit "hi") /\
  (forall c r, lit "hi" = c :: r -> is_white_space c = false) /\
  (forall r c, lit "hi" = r ++ [c] -> is_white_space c = false).
Proof.
  split; [reflexivity|].
  apply (messagesToPrompt_trimmed
           [message "user" (CString (lit "  hi  "))]).
  reflexivity.
Defined.

Lemma messagesToPrompt_system_user_witness :
  is_white_space 33%N = false /\
  messagesToPrompt
    [{| role := lit "system"; content := CString (lit " S ") |};
     {| role := lit "user"; content := CString (lit " U" ++ [33%N]) |}]
  = Normal (lit "<system>" ++ [LF] ++ lit " S " ++ [LF] ++ lit "</system>"
              ++ [LF] ++ [LF] ++ lit " U" ++ [33%N]).
Proof.
  split; [reflexivity|].
  apply (messagesToPrompt_system_user (lit " S ") (lit " U") 33%N).
  reflexivity.
Defined.

End FlattenerProperties.

(* ================================================================== *)
(** * Further properties of the converter *)
(* ================================================================== *)

Section ConverterProperties.

Lemma openaiToCli_throws_on_unconvertible_witness :
  Exists (fun m => convertible_content (content m) = false)
    (messages
       (request_of "opus"
          [message "user" (CString (lit "hi"));
           message "tool"
             (COther (Object [(lit "toString", JString (lit "x"))]))]
          None)) /\
  openaiToCli
    (request_of "opus"
       [message "user" (CString (lit "hi"));
        message "tool"
          (COther (Object [(lit "toString", JString (lit "x"))]))]
       None)
  = Throw TypeError.
Proof.
  assert (H : Exists (fun m => convertible_content (content m) = false)
    (messages
       (request_of "opus"
          [message "user" (CString (lit "hi"));
           message "tool"
             (COther (Object [(lit "toString", JString (lit "x"))]))]
          None))).
  { apply Exists_cons_tl, Exists_cons_hd; reflexivity. }
  split; [exact H|].
  exact (openaiToCli_throws_on_unconvertible _ H).
Defined.

(** X14. Every record the converter returns has a prompt without white
    space at either end, a model that is neither [undefined] nor the empty
    string, and the request's [user] as its [sessionId]. *)
Theorem openaiToCli_output (request : OpenAIChatRequest) (cli : CliInput) :
  openaiToCli request = Normal cli ->
  trim (prompt cli) = prompt cli /\
  ToBoolean (model cli) = true /\
  sessionId cli = user request.
Proof.
  unfold openaiToCli, messagesToPrompt.
  destruct (for_of (messages request) []) as [parts|e]; simpl;
    [|discriminate].
  intros [= <-]; simpl.
  split; [apply trim_idempotent|].
  split; [|reflexivity].
  destruct (extractModel_cases (OpenAI.model request))
    as [[m ->]|(b & -> & _)]; [destruct m|]; reflexivity.
Qed.

Lemma openaiToCli_output_witness :
  openaiToCli
    (request_of "gpt-4" [message "user" (CString (lit " hi "))]
       (Some (lit "abc")))
  = Normal {| prompt := lit "hi"; model := VString (lit "opus");
              sessionId := Some (lit "abc") |} /\
  trim (lit "hi") = lit "hi" /\
  ToBoolean (VString (lit "opus")) = true /\
  Some (lit "abc") = Some (lit "abc").
Proof.
  split; [reflexivity|].
  apply (openaiToCli_output
           (request_of "gpt-4" [message "user" (CString (lit " hi "))]
              (Some (lit "abc")))
           (cli := {| prompt := lit "hi"; model := VString (lit "opus");
                      sessionId := Some (lit "abc") |})).
  reflexivity.
Defined.

End ConverterProperties.
